(** * SOL/USDT EMA crossover strategy: a model of [streamlit_app.py]

    The script is re-run top to bottom on every interaction.  One run
    fetches the candles, adds the columns [ema_fast], [ema_slow] and
    [atr] to the frame, runs the signal logic against the session's
    signal list and renders a chart and a table.

    Prices are [float64] in the script.  Finite values are modelled by
    exact rationals ([Q]); rounding and overflow are not modelled.  A
    cell that pandas leaves as NaN is [None].  The one division whose
    divisor comes from the data ([atr / close]) keeps the IEEE special
    results in the type [fval]. *)

From Stdlib Require Import Bool String.
From Stdlib Require Import List Sorted ZArith QArith Qminmax Qabs Qfield Lia Lqa.
Import ListNotations.

Local Open Scope Q_scope.

(** ** Configuration *)

Definition EMA_FAST : positive := 9.
Definition EMA_SLOW : positive := 21.
Definition ATR_PERIOD : nat := 14.

(** ** Comparison of floats that are finite *)

Definition Qlt_bool (x y : Q) : bool := negb (Qle_bool y x).

(** ** The part of pandas the script uses

    A [Series] of floats is a list of cells; [None] is NaN. *)

Module Pandas.

Definition series := list (option Q).

(** A column without NaN, as a series. *)
Definition of_values (xs : list Q) : series := map Some xs.

(** [s.shift()]: every cell moves one place down, the first is NaN,
    the last value drops out. *)
Definition shift (s : series) : series :=
  match s with
  | [] => []
  | _ :: _ => None :: removelast s
  end.

(** Cell-wise arithmetic: NaN in, NaN out. *)
Definition cell_sub (a b : option Q) : option Q :=
  match a, b with
  | Some x, Some y => Some (x - y)
  | _, _ => None
  end.

Fixpoint sub (a b : series) : series :=
  match a, b with
  | x :: a', y :: b' => cell_sub x y :: sub a' b'
  | _, _ => []
  end.

Definition abs (s : series) : series := map (option_map Qabs) s.

(** [pd.concat([a, b, c], axis=1)]: one row of three cells per index. *)
Fixpoint concat3 (a b c : series) : list (list (option Q)) :=
  match a, b, c with
  | x :: a', y :: b', z :: c' => [x; y; z] :: concat3 a' b' c'
  | _, _, _ => []
  end.

(** [.max(axis=1)] with the default [skipna=True]: the largest of the
    cells of a row that are not NaN, NaN when there is none. *)
Definition cell_max (acc cell : option Q) : option Q :=
  match acc, cell with
  | Some x, Some y => Some (Qmax x y)
  | Some x, None => Some x
  | None, _ => cell
  end.

Definition row_max (row : list (option Q)) : option Q :=
  fold_left cell_max row None.

Definition max_axis1 (rows : list (list (option Q))) : series :=
  map row_max rows.

(** [.rolling(n).mean()]: the window of index [i] holds the cells
    [i-n+1 .. i] that exist; [min_periods] defaults to [n]; the result
    is the mean of the observations of the window when there are at
    least [min_periods] of them, NaN otherwise. *)
Definition window (n i : nat) (s : series) : list (option Q) :=
  skipn (S i - n) (firstn (S i) s).

Fixpoint observations (w : list (option Q)) : list Q :=
  match w with
  | [] => []
  | Some x :: w' => x :: observations w'
  | None :: w' => observations w'
  end.

Definition Qsum (xs : list Q) : Q := fold_right Qplus 0 xs.

Definition mean_min_periods (minp : nat) (w : list (option Q)) : option Q :=
  let obs := observations w in
  if (minp <=? length obs)%nat
  then Some (Qsum obs / inject_Z (Z.of_nat (length obs)))
  else None.

Definition rolling_mean (n : nat) (s : series) : series :=
  map (fun i => mean_min_periods n (window n i s)) (seq 0 (length s)).

(** [.ewm(span=k).mean()] with the defaults [adjust=True],
    [min_periods=0], on a column without NaN.  alpha = 2/(k+1).
    pandas keeps the running average [weighted] and the weight
    [old_wt] it stands for; each new value enters with weight 1. *)
Definition alpha_of_span (span : positive) : Q := 2 / (inject_Z (Zpos span) + 1).

Fixpoint ewm_loop (alpha weighted old_wt : Q) (vals : list Q) : list Q :=
  match vals with
  | [] => []
  | cur :: rest =>
      let old_wt' := old_wt * (1 - alpha) in
      let weighted' := (old_wt' * weighted + 1 * cur) / (old_wt' + 1) in
      weighted' :: ewm_loop alpha weighted' (old_wt' + 1) rest
  end.

Definition ewm_mean (span : positive) (vals : list Q) : list Q :=
  match vals with
  | [] => []
  | x0 :: rest => x0 :: ewm_loop (alpha_of_span span) x0 1 rest
  end.

(** [s.iloc[-k]] for k >= 1: the k-th cell from the end; out of
    bounds is an IndexError ([None] here). *)
Definition iloc_neg {A} (k : nat) (l : list A) : option A :=
  if ((1 <=? k) && (k <=? length l))%nat then nth_error l (length l - k) else None.

End Pandas.

(** ** The frame *)

(** One kline as [fetch_data] leaves it: [time] in epoch milliseconds,
    the four prices as floats. *)
Record candle := mkCandle {
  c_time : Z;
  c_open : Q;
  c_high : Q;
  c_low : Q;
  c_close : Q
}.

(** A row after the three indicator columns were added. *)
Record row := mkRow {
  r_candle : candle;
  r_ema_fast : Q;
  r_ema_slow : Q;
  r_atr : option Q
}.

Definition r_time (r : row) : Z := c_time (r_candle r).
Definition r_close (r : row) : Q := c_close (r_candle r).

(** ** Indicators *)

(** [tr] of [atr(df, period)]. *)
Definition true_range (df : list candle) : Pandas.series :=
  let high := Pandas.of_values (map c_high df) in
  let low := Pandas.of_values (map c_low df) in
  let close := Pandas.of_values (map c_close df) in
  let tr1 := Pandas.sub high low in
  let tr2 := Pandas.abs (Pandas.sub high (Pandas.shift close)) in
  let tr3 := Pandas.abs (Pandas.sub low (Pandas.shift close)) in
  Pandas.max_axis1 (Pandas.concat3 tr1 tr2 tr3).

Definition atr (df : list candle) (period : nat) : Pandas.series :=
  Pandas.rolling_mean period (true_range df).

Definition ema_fast (df : list candle) : list Q :=
  Pandas.ewm_mean EMA_FAST (map c_close df).

Definition ema_slow (df : list candle) : list Q :=
  Pandas.ewm_mean EMA_SLOW (map c_close df).

(** The three assignments [df["ema_fast"] = ...], [df["ema_slow"] = ...],
    [df["atr"] = atr(df)]. *)
Fixpoint add_columns (df : list candle) (f s : list Q) (a : Pandas.series) : list row :=
  match df, f, s, a with
  | c :: df', x :: f', y :: s', z :: a' => mkRow c x y z :: add_columns df' f' s' a'
  | _, _, _, _ => []
  end.

Definition enrich (df : list candle) : list row :=
  add_columns df (ema_fast df) (ema_slow df) (atr df ATR_PERIOD).

(** ** Floats that may not be finite

    [atr / close] is a division of two [numpy.float64]: a zero divisor
    does not raise, it yields an infinity or NaN.  (A negative zero
    divisor, which would flip the sign of the infinity, is not
    modelled: a zero close is [+0.0].) *)

Inductive fval :=
| Fin (q : Q)
| PInf
| NInf
| NaN.

Definition fdiv (x y : Q) : fval :=
  if Qeq_bool y 0 then
    if Qlt_bool 0 x then PInf
    else if Qlt_bool x 0 then NInf
    else NaN
  else Fin (x / y).

Definition fmul (v : fval) (k : Q) : fval :=
  match v with
  | Fin q => Fin (q * k)
  | PInf => if Qlt_bool 0 k then PInf else if Qlt_bool k 0 then NInf else NaN
  | NInf => if Qlt_bool 0 k then NInf else if Qlt_bool k 0 then PInf else NaN
  | NaN => NaN
  end.

(** [v < b] for a finite [b]; every comparison with NaN is false. *)
Definition flt (v : fval) (b : Q) : bool :=
  match v with
  | Fin q => Qlt_bool q b
  | NInf => true
  | PInf | NaN => false
  end.


(** ** Session state *)

Local Open Scope string_scope.

(** The dict appended to [st.session_state.signals]. *)
Record signal := mkSignal {
  s_type : string;
  s_time : Z;
  s_price : Q;
  s_tp : Q;
  s_sl : Q;
  s_margin : string
}.

Definition signals_t := list signal.

(** [st.session_state.signals.clear()] *)
Definition clear (signals : signals_t) : signals_t := [].

(** ** Signal logic *)

(** [atr_pct] of the script. *)
Definition atr_pct (atr_last close_last : Q) : fval :=
  fmul (fdiv atr_last close_last) 100.

(** The [if / elif / elif / else] chain on [atr_pct]. *)
Definition margin_of (p : fval) : string :=
  if flt p 2 then "20x"
  else if flt p 3 then "10x"
  else if flt p 5 then "5x"
  else "3x".

(** [len(df) > 2 and not np.isnan(df["atr"].iloc[-1])]; when it holds
    the block reads [prev = df.iloc[-2]], [last = df.iloc[-1]] and the
    last ATR. *)
Definition evaluated (df : list row) : option (row * row * Q) :=
  if (2 <? length df)%nat then
    match Pandas.iloc_neg 1 df, Pandas.iloc_neg 2 df with
    | Some last, Some prev =>
        match r_atr last with
        | Some a => Some (prev, last, a)
        | None => None
        end
    | _, _ => None
    end
  else None.

(** [not signals or signals[-1]["time"] != last["time"]] *)
Definition dedup_ok (signals : signals_t) (t : Z) : bool :=
  match Pandas.iloc_neg 1 signals with
  | None => true
  | Some s => negb (s_time s =? t)%Z
  end.

Definition buy_cross (prev last : row) : bool :=
  Qlt_bool (r_ema_fast prev) (r_ema_slow prev) &&
  Qlt_bool (r_ema_slow last) (r_ema_fast last).

Definition sell_cross (prev last : row) : bool :=
  Qlt_bool (r_ema_slow prev) (r_ema_fast prev) &&
  Qlt_bool (r_ema_fast last) (r_ema_slow last).

Definition buy_signal (last : row) (a : Q) (margin : string) : signal :=
  {| s_type := "BUY"; s_time := r_time last; s_price := r_close last;
     s_tp := (r_close last + 2 * a)%Q; s_sl := (r_close last - a)%Q;
     s_margin := margin |}.

Definition sell_signal (last : row) (a : Q) (margin : string) : signal :=
  {| s_type := "SELL"; s_time := r_time last; s_price := r_close last;
     s_tp := (r_close last - 2 * a)%Q; s_sl := (r_close last + a)%Q;
     s_margin := margin |}.

(** The block under [# SIGNAL LOGIC], on the session's signal list. *)
Definition signal_logic (df : list row) (signals : signals_t) : signals_t :=
  match evaluated df with
  | Some (prev, last, a) =>
      let margin := margin_of (atr_pct a (r_close last)) in
      if buy_cross prev last then
        if dedup_ok signals (r_time last)
        then (signals ++ [buy_signal last a margin])%list
        else signals
      else if sell_cross prev last then
        if dedup_ok signals (r_time last)
        then (signals ++ [sell_signal last a margin])%list
        else signals
      else signals
  | None => signals
  end.

(** One detection pass on a fetched frame. *)
Definition detect (df : list candle) (signals : signals_t) : signals_t :=
  signal_logic (enrich df) signals.

(** ** Fetching *)

(** Exceptions as values. *)
Inductive result (A : Type) :=
| Return (a : A)
| Raise (msg : string).
Arguments Return {A} a.
Arguments Raise {A} msg.

Definition try_except {A B} (m : result A) (ok : A -> B) (handler : string -> B) : B :=
  match m with
  | Return a => ok a
  | Raise e => handler e
  end.

Definition urls : list string :=
  [ "https://api1.binance.com/api/v3/klines";
    "https://api2.binance.com/api/v3/klines";
    "https://api3.binance.com/api/v3/klines" ].

(** What one mirror answers: the body of the [try] of [fetch_data]
    (request, status check, frame construction, conversions) either
    yields the frame or raises. *)
Definition mirrors := string -> result (list candle).

Definition show_error (last_error : option string) : string :=
  match last_error with
  | None => "None"
  | Some e => e
  end.

Fixpoint fetch_loop (net : mirrors) (todo : list string) (last_error : option string)
  : result (list candle) :=
  match todo with
  | [] => Raise ("Binance blocked all endpoints: " ++ show_error last_error)
  | url :: rest =>
      try_except (net url)
        (fun df => Return df)
        (fun e => fetch_loop net rest (Some e))
  end.

Definition fetch_data (net : mirrors) : result (list candle) :=
  fetch_loop net urls None.

(** ** Views of the signal list *)

(** [st.session_state.signals[-10:]], walked in list order by the plot. *)
Definition chart_view (signals : signals_t) : list signal :=
  skipn (length signals - 10) signals.

(** [pd.DataFrame(st.session_state.signals)[::-1]], shown when the
    list is not empty. *)
Definition table_view (signals : signals_t) : option (list signal) :=
  match signals with
  | [] => None
  | _ :: _ => Some (rev signals)
  end.

(** ** One run of the script *)

Inductive page :=
| ErrorShown (msg : string)
| Dashboard (df : list row) (markers : list signal) (table : option (list signal)).

(** From [# MAIN] to the end: the new session state and what is shown.
    [st.error(e); st.stop()] ends the run. *)
Definition main (net : mirrors) (signals : signals_t) : signals_t * page :=
  try_except (fetch_data net)
    (fun df =>
       let df' := enrich df in
       let signals' := signal_logic df' signals in
       (signals', Dashboard df' (chart_view signals') (table_view signals')))
    (fun e => (signals, ErrorShown e)).

(** The run with its controls: the clear button empties the list before
    [# MAIN].  The refresh button drops the cached frame and starts the
    run again, which is a run with the mirrors' new answers. *)
Definition run (clear_pressed : bool) (net : mirrors) (signals : signals_t)
  : signals_t * page :=
  main net (if clear_pressed then clear signals else signals).

Local Close Scope string_scope.

(** ** Sequences of operations on the session *)

(** The two things that change the signal list: a detection pass on a
    freshly fetched frame, and the clear button. *)
Inductive op :=
| Pass (df : list candle)
| Clear.

Definition step (signals : signals_t) (o : op) : signals_t :=
  match o with
  | Pass df => detect df signals
  | Clear => clear signals
  end.

(** The session starts with an empty list. *)
Definition run_ops (ops : list op) : signals_t := fold_left step ops [].

Definition last_time (df : list candle) : option Z :=
  option_map c_time (Pandas.iloc_neg 1 df).

(** The time of the last candle of each frame that has one, in the
    order of the passes. *)
Fixpoint pass_times (ops : list op) : list Z :=
  match ops with
  | [] => []
  | Pass df :: rest =>
      match last_time df with
      | Some t => t :: pass_times rest
      | None => pass_times rest
      end
  | Clear :: rest => pass_times rest
  end.

(** ** The view the specification describes *)

(** [tail(n)] in the words of the specification: the last [n] entries,
    newest first. *)
Definition tail_spec (n : nat) (signals : signals_t) : list signal :=
  rev (skipn (length signals - n) signals).

(** ** Sample frames *)

(** Candles one millisecond apart whose high and low are one above and
    one below the close. *)
Fixpoint mk_df (t : Z) (closes : list Q) : list candle :=
  match closes with
  | [] => []
  | c :: rest => mkCandle t c (c + 1) (c - 1) c :: mk_df (t + 1)%Z rest
  end.

Definition falling : list Q := [20; 19; 18; 17; 16; 15; 14; 13; 12; 11; 10; 9; 8; 7].
Definition rising : list Q := [47; 48; 49; 50; 51; 52; 53; 54; 55; 56; 57; 58; 59; 60].

(** Fourteen candles: as many as [ATR_PERIOD]. *)
Definition df14 : list candle := mk_df 0 falling.

(** A fall followed by a jump: the fast EMA crosses above the slow one
    on the last candle. *)
Definition df_buy (t : Z) : list candle := mk_df t (falling ++ [30]).

(** A rise followed by a drop: the fast EMA crosses below. *)
Definition df_sell (t : Z) : list candle := mk_df t (rising ++ [10]).

(** A flat market. *)
Definition df_flat : list candle := mk_df 0 (repeat 5 15).

Definition sample_signal (t : Z) : signal :=
  mkSignal "BUY" t 30 (260 # 7) (185 # 7) "3x".

Definition sample_log (n : nat) : signals_t :=
  map (fun i => sample_signal (Z.of_nat i)) (seq 0 n).

(** Default for [nth] on frames. *)
Definition dummy_row : row := mkRow (mkCandle 0 0 0 0 0) 0 0 None.

(** ** Auxiliary description of the True Range *)

(** The cell of [tr] for one candle, given the cell of
    [close.shift()] on its row. *)
Definition tr_cell (k : candle) (pc : option Q) : option Q :=
  Pandas.row_max
    [ Some (c_high k - c_low k);
      option_map Qabs (Pandas.cell_sub (Some (c_high k)) pc);
      option_map Qabs (Pandas.cell_sub (Some (c_low k)) pc) ].

(** ** The plot *)













(** ** Measures used in the statements *)

(** The passes since the last clear. *)
Definition live_passes (ops : list op) : nat :=
  fold_left (fun n o => match o with Pass _ => S n | Clear => 0%nat end) ops 0%nat.

(** The sum of the values of a list given newest first, each weighted
    by [beta] to the power of its age:
    [y0 + beta * y1 + beta^2 * y2 + ...]. *)
Fixpoint decayed (beta : Q) (newest_first : list Q) : Q :=
  match newest_first with
  | [] => 0
  | y :: older => y + beta * decayed beta older
  end.


(** A frame whose first candle has its high below its low. *)
Definition df_inverted : list candle :=
  mkCandle 0 10 0 1000 10 :: mk_df 1 (repeat 10 13).

(** ** Lemmas on the comparisons *)

Lemma Qlt_bool_iff (x y : Q) : Qlt_bool x y = true <-> x < y.
Proof.
  unfold Qlt_bool. rewrite negb_true_iff.
  split; intro H.
  - apply Qnot_le_lt. intro Hle. apply Qle_bool_iff in Hle. congruence.
  - destruct (Qle_bool y x) eqn:E; [|reflexivity].
    apply Qle_bool_iff in E. exfalso. exact (Qlt_not_le _ _ H E).
Qed.

Lemma Qlt_bool_false_iff (x y : Q) : Qlt_bool x y = false <-> y <= x.
Proof.
  unfold Qlt_bool. rewrite negb_false_iff. apply Qle_bool_iff.
Qed.


(** ** Lemmas on indexing from the end *)

Section FromTheEnd.
Context {A : Type}.

Lemma iloc_neg_spec (k : nat) (l : list A) (x : A) :
  Pandas.iloc_neg k l = Some x <->
  (1 <= k <= length l)%nat /\ nth_error l (length l - k) = Some x.
Proof.
  unfold Pandas.iloc_neg.
  destruct (1 <=? k)%nat eqn:E1; destruct (k <=? length l)%nat eqn:E2; simpl.
  - apply Nat.leb_le in E1, E2. split; [intros H; split; [lia|exact H]|intros [_ H]; exact H].
  - apply Nat.leb_gt in E2. split; [discriminate|intros [H _]; lia].
  - apply Nat.leb_gt in E1. split; [discriminate|intros [H _]; lia].
  - apply Nat.leb_gt in E1. split; [discriminate|intros [H _]; lia].
Qed.

Lemma iloc_neg_snoc (l : list A) (x : A) : Pandas.iloc_neg 1 (l ++ [x]) = Some x.
Proof.
  apply iloc_neg_spec. rewrite length_app. simpl. split; [lia|].
  replace (length l + 1 - 1)%nat with (length l) by lia.
  rewrite nth_error_app2 by lia. rewrite Nat.sub_diag. reflexivity.
Qed.

Lemma iloc_neg_last_inv (l : list A) (x : A) :
  Pandas.iloc_neg 1 l = Some x -> exists pre, l = pre ++ [x].
Proof.
  intros H. apply iloc_neg_spec in H. destruct H as [Hk Hn].
  destruct (exists_last (l:=l)) as [pre [y Hy]].
  { intro E. subst l. simpl in Hk. lia. }
  subst l. exists pre. rewrite length_app in Hn. simpl in Hn.
  replace (length pre + 1 - 1)%nat with (length pre) in Hn by lia.
  rewrite nth_error_app2 in Hn by lia. rewrite Nat.sub_diag in Hn.
  simpl in Hn. congruence.
Qed.

Lemma iloc_neg_none_nil (l : list A) : Pandas.iloc_neg 1 l = None -> l = [].
Proof.
  destruct l as [|a l]; [reflexivity|]. intros H.
  destruct (@exists_last A (a :: l)) as [pre [y Hy]]; [discriminate|].
  rewrite Hy, iloc_neg_snoc in H. discriminate.
Qed.

End FromTheEnd.

Lemma iloc_neg_map {A B} (f : A -> B) (k : nat) (l : list A) :
  Pandas.iloc_neg k (map f l) = option_map f (Pandas.iloc_neg k l).
Proof.
  unfold Pandas.iloc_neg. rewrite length_map.
  destruct ((1 <=? k) && (k <=? length l))%nat; [|reflexivity].
  apply nth_error_map.
Qed.

(** ** Lemmas on the guard and on the dedup check *)

Lemma evaluated_spec (df : list row) (prev last : row) (a : Q) :
  evaluated df = Some (prev, last, a) <->
  (2 < length df)%nat /\
  nth_error df (length df - 1) = Some last /\
  nth_error df (length df - 2) = Some prev /\
  r_atr last = Some a.
Proof.
  unfold evaluated.
  destruct (2 <? length df)%nat eqn:E.
  - apply Nat.ltb_lt in E.
    destruct (Pandas.iloc_neg 1 df) as [l1|] eqn:E1.
    + destruct (Pandas.iloc_neg 2 df) as [l2|] eqn:E2.
      * apply iloc_neg_spec in E1, E2. destruct E1 as [_ E1], E2 as [_ E2].
        rewrite E1, E2.
        destruct (r_atr l1) as [q|] eqn:Ea.
        -- split.
           ++ intros H. inversion H; subst. auto.
           ++ intros (_ & H1 & H2 & H3).
              inversion H1; subst. inversion H2; subst. congruence.
        -- split; [discriminate|].
           intros (_ & H1 & _ & H3). inversion H1; subst. congruence.
      * split; [discriminate|]. intros (_ & _ & H2 & _).
        assert (Pandas.iloc_neg 2 df = Some prev) as X
            by (apply iloc_neg_spec; split; [lia|assumption]).
        congruence.
    + split; [discriminate|]. intros (_ & H1 & _).
      assert (Pandas.iloc_neg 1 df = Some last) as X
          by (apply iloc_neg_spec; split; [lia|assumption]).
      congruence.
  - apply Nat.ltb_ge in E. split; [discriminate|]. intros [H _]. lia.
Qed.

Lemma dedup_ok_spec (signals : signals_t) (t : Z) :
  dedup_ok signals t = true <->
  signals = [] \/ exists pre s, signals = pre ++ [s] /\ s_time s <> t.
Proof.
  unfold dedup_ok.
  destruct (Pandas.iloc_neg 1 signals) as [s|] eqn:E.
  - destruct (iloc_neg_last_inv _ _ E) as [pre Hpre]. subst signals.
    rewrite negb_true_iff, Z.eqb_neq. split.
    + intros H. right. exists pre, s. auto.
    + intros [H | (pre' & s' & H & Hne)].
      * destruct pre; discriminate.
      * apply app_inj_tail in H. destruct H as [_ H]. subst. assumption.
  - apply iloc_neg_none_nil in E. subst. split; auto.
Qed.

Lemma dedup_ok_snoc (signals : signals_t) (s : signal) :
  dedup_ok (signals ++ [s]) (s_time s) = false.
Proof.
  unfold dedup_ok. rewrite iloc_neg_snoc. rewrite Z.eqb_refl. reflexivity.
Qed.

Lemma buy_cross_iff (prev last : row) :
  buy_cross prev last = true <->
  r_ema_fast prev < r_ema_slow prev /\ r_ema_fast last > r_ema_slow last.
Proof.
  unfold buy_cross. rewrite andb_true_iff, !Qlt_bool_iff. tauto.
Qed.

Lemma sell_cross_iff (prev last : row) :
  sell_cross prev last = true <->
  r_ema_fast prev > r_ema_slow prev /\ r_ema_fast last < r_ema_slow last.
Proof.
  unfold sell_cross. rewrite andb_true_iff, !Qlt_bool_iff. tauto.
Qed.

Lemma crosses_exclusive (prev last : row) :
  buy_cross prev last = true -> sell_cross prev last = false.
Proof.
  intros H. apply buy_cross_iff in H. destruct H as [H1 _].
  destruct (sell_cross prev last) eqn:E; [|reflexivity].
  apply sell_cross_iff in E. destruct E as [E1 _].
  exfalso. exact (Qlt_irrefl _ (Qlt_trans _ _ _ H1 E1)).
Qed.

(** ** Lemmas on the pandas operations *)

Module PandasFacts.
Import Pandas.

Lemma length_shift (s : series) : length (shift s) = length s.
Proof.
  destruct s as [|x s]; [reflexivity|].
  unfold shift. rewrite removelast_firstn_len. simpl length.
  rewrite length_firstn. simpl. lia.
Qed.

Lemma nth_error_shift_0 (s : series) : s <> [] -> nth_error (shift s) 0 = Some None.
Proof.
  destruct s; [congruence|reflexivity].
Qed.

Lemma nth_error_shift_S (s : series) (i : nat) :
  (S i < length s)%nat -> nth_error (shift s) (S i) = nth_error s i.
Proof.
  intros H. destruct s as [|x s]; [simpl in H; lia|].
  unfold shift. rewrite removelast_firstn_len. simpl nth_error at 1.
  rewrite nth_error_firstn.
  match goal with
  | |- context [Nat.ltb ?a ?b] => destruct (Nat.ltb_spec a b) as [_|Hge]
  end; [reflexivity|].
  simpl in H, Hge. lia.
Qed.

Lemma length_ewm_loop (alpha w o : Q) (vals : list Q) :
  length (ewm_loop alpha w o vals) = length vals.
Proof.
  revert w o. induction vals as [|x vals IH]; intros w o; simpl; [reflexivity|].
  now rewrite IH.
Qed.

Lemma length_ewm_mean (span : positive) (vals : list Q) :
  length (ewm_mean span vals) = length vals.
Proof.
  destruct vals; simpl; [reflexivity|]. now rewrite length_ewm_loop.
Qed.

Lemma length_rolling_mean (n : nat) (s : series) :
  length (rolling_mean n s) = length s.
Proof.
  unfold rolling_mean. now rewrite length_map, length_seq.
Qed.

Lemma nth_error_rolling_mean (n i : nat) (s : series) :
  (i < length s)%nat ->
  nth_error (rolling_mean n s) i = Some (mean_min_periods n (window n i s)).
Proof.
  intros H. unfold rolling_mean.
  rewrite nth_error_map, nth_error_seq.
  apply Nat.ltb_lt in H. rewrite H. reflexivity.
Qed.

(** A window that holds no NaN. *)
Lemma observations_values (xs : list Q) : observations (of_values xs) = xs.
Proof.
  induction xs as [|x xs IH]; simpl; [reflexivity|]. now rewrite IH.
Qed.

Lemma window_values (n i : nat) (xs : list Q) :
  window n i (of_values xs) = of_values (skipn (S i - n) (firstn (S i) xs)).
Proof.
  unfold window, of_values. now rewrite firstn_map, skipn_map.
Qed.

Lemma row_max_three (x : Q) (b c : option Q) :
  row_max [Some x; b; c] =
  Some (match b, c with
        | Some y, Some z => Qmax (Qmax x y) z
        | Some y, None => Qmax x y
        | None, Some z => Qmax x z
        | None, None => x
        end).
Proof.
  destruct b, c; reflexivity.
Qed.

End PandasFacts.

(** ** Lemmas on the indicators *)

Lemma tr_rows (df : list candle) (sc : Pandas.series) :
  Pandas.max_axis1
    (Pandas.concat3
       (Pandas.sub (Pandas.of_values (map c_high df)) (Pandas.of_values (map c_low df)))
       (Pandas.abs (Pandas.sub (Pandas.of_values (map c_high df)) sc))
       (Pandas.abs (Pandas.sub (Pandas.of_values (map c_low df)) sc)))
  = map (fun p => tr_cell (fst p) (snd p)) (combine df sc).
Proof.
  revert sc. induction df as [|k df IH]; intros sc; [reflexivity|].
  destruct sc as [|pc sc]; [reflexivity|].
  simpl. f_equal. apply IH.
Qed.

Lemma true_range_cells (df : list candle) :
  true_range df =
  map (fun p => tr_cell (fst p) (snd p))
      (combine df (Pandas.shift (Pandas.of_values (map c_close df)))).
Proof.
  unfold true_range. apply tr_rows.
Qed.

Lemma nth_error_combine {A B} (l : list A) (l' : list B) (i : nat) (x : A) (y : B) :
  nth_error l i = Some x -> nth_error l' i = Some y ->
  nth_error (combine l l') i = Some (x, y).
Proof.
  revert l l'. induction i as [|i IH]; intros [|a l] [|b l'] H1 H2;
    simpl in *; try discriminate.
  - congruence.
  - auto.
Qed.

Lemma length_true_range (df : list candle) : length (true_range df) = length df.
Proof.
  rewrite true_range_cells, length_map, length_combine,
    PandasFacts.length_shift.
  unfold Pandas.of_values. rewrite !length_map. lia.
Qed.

(** No cell of [tr] is NaN: [tr1] never is, and the row maximum skips
    the NaN of the shifted close. *)
Lemma true_range_no_nan (df : list candle) :
  exists xs, true_range df = Pandas.of_values xs.
Proof.
  rewrite true_range_cells.
  generalize (Pandas.shift (Pandas.of_values (map c_close df))).
  induction df as [|k df IH]; intros sc.
  - exists []. reflexivity.
  - destruct sc as [|pc sc]; [exists []; reflexivity|].
    destruct (IH sc) as [xs Hxs]. simpl. rewrite Hxs.
    unfold tr_cell. rewrite PandasFacts.row_max_three.
    eexists (_ :: xs). reflexivity.
Qed.

Lemma length_atr (df : list candle) (period : nat) :
  length (atr df period) = length df.
Proof.
  unfold atr. now rewrite PandasFacts.length_rolling_mean, length_true_range.
Qed.

Lemma length_ema_fast (df : list candle) : length (ema_fast df) = length df.
Proof.
  unfold ema_fast. now rewrite PandasFacts.length_ewm_mean, length_map.
Qed.

Lemma length_ema_slow (df : list candle) : length (ema_slow df) = length df.
Proof.
  unfold ema_slow. now rewrite PandasFacts.length_ewm_mean, length_map.
Qed.

Lemma add_columns_candles (df : list candle) (f s : list Q) (a : Pandas.series) :
  length f = length df -> length s = length df -> length a = length df ->
  map r_candle (add_columns df f s a) = df.
Proof.
  revert f s a. induction df as [|c df IH]; intros [|x f] [|y s] [|z a] Hf Hs Ha;
    simpl in *; try discriminate; [reflexivity|].
  f_equal. apply IH; lia.
Qed.

(** Adding the columns keeps the candles, row for row. *)
Lemma enrich_candles (df : list candle) : map r_candle (enrich df) = df.
Proof.
  unfold enrich. apply add_columns_candles.
  - apply length_ema_fast.
  - apply length_ema_slow.
  - apply length_atr.
Qed.

Lemma length_enrich (df : list candle) : length (enrich df) = length df.
Proof.
  rewrite <- (enrich_candles df) at 2. now rewrite length_map.
Qed.

(** ** The signal logic, case by case *)

Section SignalLogic.
Variables (df : list row) (signals : signals_t).
Variables (prev last : row) (a : Q).
Hypothesis guard : evaluated df = Some (prev, last, a).

Let margin := margin_of (atr_pct a (r_close last)).

Lemma signal_logic_buy :
  buy_cross prev last = true -> dedup_ok signals (r_time last) = true ->
  signal_logic df signals = signals ++ [buy_signal last a margin].
Proof.
  intros Hb Hd. unfold signal_logic. rewrite guard, Hb, Hd. reflexivity.
Qed.

Lemma signal_logic_sell :
  sell_cross prev last = true -> dedup_ok signals (r_time last) = true ->
  signal_logic df signals = signals ++ [sell_signal last a margin].
Proof.
  intros Hs Hd. unfold signal_logic. rewrite guard, Hs, Hd.
  destruct (buy_cross prev last) eqn:Hb; [|reflexivity].
  apply crosses_exclusive in Hb. congruence.
Qed.

Lemma signal_logic_no_cross :
  buy_cross prev last = false -> sell_cross prev last = false ->
  signal_logic df signals = signals.
Proof.
  intros Hb Hs. unfold signal_logic. rewrite guard, Hb, Hs. reflexivity.
Qed.

Lemma signal_logic_dup :
  dedup_ok signals (r_time last) = false -> signal_logic df signals = signals.
Proof.
  intros Hd. unfold signal_logic. rewrite guard, Hd.
  destruct (buy_cross prev last), (sell_cross prev last); reflexivity.
Qed.

End SignalLogic.

Lemma signal_logic_not_evaluated (df : list row) (signals : signals_t) :
  evaluated df = None -> signal_logic df signals = signals.
Proof.
  intros H. unfold signal_logic. now rewrite H.
Qed.

(** What a pass that appends has appended. *)
Lemma signal_logic_appended (df : list row) (signals : signals_t) :
  signal_logic df signals = signals \/
  exists prev last a s,
    evaluated df = Some (prev, last, a) /\
    dedup_ok signals (r_time last) = true /\
    signal_logic df signals = signals ++ [s] /\
    s_time s = r_time last /\
    s_margin s = margin_of (atr_pct a (r_close last)).
Proof.
  destruct (evaluated df) as [[[prev last] a]|] eqn:G.
  - destruct (dedup_ok signals (r_time last)) eqn:D.
    + destruct (buy_cross prev last) eqn:B.
      * right. eexists prev, last, a, _. repeat split; try eassumption.
        -- eapply signal_logic_buy; eassumption.
        -- reflexivity.
        -- reflexivity.
      * destruct (sell_cross prev last) eqn:S.
        -- right. eexists prev, last, a, _. repeat split; try eassumption.
           ++ eapply signal_logic_sell; eassumption.
           ++ reflexivity.
           ++ reflexivity.
        -- left. eapply signal_logic_no_cross; eassumption.
    + left. eapply signal_logic_dup; eassumption.
  - left. now apply signal_logic_not_evaluated.
Qed.

Lemma main_fetched (net : mirrors) (df : list candle) (signals : signals_t) :
  fetch_data net = Return df ->
  main net signals =
  (detect df signals,
   Dashboard (enrich df) (chart_view (detect df signals))
             (table_view (detect df signals))).
Proof.
  intros H. unfold main. rewrite H. reflexivity.
Qed.

(** ** Crossover signals *)

(** C1.  In a refresh pass whose fetch returned [df], where the frame
    has more than two rows, the last ATR is defined ([a]) and the dedup
    check passes (the signal list is empty or its last entry has another
    time than the last candle): an upward strict crossing of the EMAs
    between [prev] and [last] appends a BUY signal with price
    [last.close], take-profit [last.close + 2 atr] and stop-loss
    [last.close - atr]; a downward strict crossing appends a SELL signal
    with take-profit [last.close - 2 atr] and stop-loss
    [last.close + atr]; without a strict crossing nothing is appended. *)
Theorem crossover_appends_signal
    (net : mirrors) (df : list candle) (signals : signals_t)
    (prev last : row) (a : Q) :
  fetch_data net = Return df ->
  (2 < length df)%nat ->
  nth_error (enrich df) (length df - 2) = Some prev ->
  nth_error (enrich df) (length df - 1) = Some last ->
  r_atr last = Some a ->
  (signals = [] \/ exists pre s, signals = pre ++ [s] /\ s_time s <> r_time last) ->
  let margin := margin_of (atr_pct a (r_close last)) in
  (r_ema_fast prev < r_ema_slow prev /\ r_ema_fast last > r_ema_slow last ->
   fst (main net signals) =
   signals ++ [mkSignal "BUY" (r_time last) (r_close last)
                 (r_close last + 2 * a) (r_close last - a) margin]) /\
  (r_ema_fast prev > r_ema_slow prev /\ r_ema_fast last < r_ema_slow last ->
   fst (main net signals) =
   signals ++ [mkSignal "SELL" (r_time last) (r_close last)
                 (r_close last - 2 * a) (r_close last + a) margin]) /\
  (~ (r_ema_fast prev < r_ema_slow prev /\ r_ema_fast last > r_ema_slow last) ->
   ~ (r_ema_fast prev > r_ema_slow prev /\ r_ema_fast last < r_ema_slow last) ->
   fst (main net signals) = signals).
Proof.
  intros Hfetch Hlen Hprev Hlast Hatr Hdedup margin.
  rewrite (main_fetched _ _ _ Hfetch). simpl fst. unfold detect.
  assert (G : evaluated (enrich df) = Some (prev, last, a)).
  { apply evaluated_spec. rewrite length_enrich. auto. }
  apply dedup_ok_spec in Hdedup.
  split; [|split].
  - intros H. apply buy_cross_iff in H.
    exact (signal_logic_buy _ _ _ _ _ G H Hdedup).
  - intros H. apply sell_cross_iff in H.
    exact (signal_logic_sell _ _ _ _ _ G H Hdedup).
  - intros Hb Hs. apply (signal_logic_no_cross _ _ _ _ _ G).
    + destruct (buy_cross prev last) eqn:E; [|reflexivity].
      apply buy_cross_iff in E. contradiction.
    + destruct (sell_cross prev last) eqn:E; [|reflexivity].
      apply sell_cross_iff in E. contradiction.
Qed.

Lemma crossover_appends_signal_witness :
  exists s,
    fst (main (fun _ => Return (df_buy 0)) []) = [s] /\
    s_type s = "BUY"%string /\ s_time s = 14%Z /\ s_price s = 30.
Proof.
  pose (rows := enrich (df_buy 0)).
  pose (prev := nth 13 rows dummy_row).
  pose (last := nth 14 rows dummy_row).
  eexists. split.
  - refine (proj1 (crossover_appends_signal
                     (fun _ => Return (df_buy 0)) (df_buy 0) [] prev last (50 # 14)
                     _ _ _ _ _ _) _).
    + reflexivity.
    + vm_compute. lia.
    + vm_compute. reflexivity.
    + vm_compute. reflexivity.
    + vm_compute. reflexivity.
    + left. reflexivity.
    + split; vm_compute; reflexivity.
  - vm_compute. repeat split.
Defined.

(** ** One pass changes the list at its end only *)

Lemma detect_cases (df : list candle) (signals : signals_t) :
  detect df signals = signals \/ exists s, detect df signals = signals ++ [s].
Proof.
  unfold detect.
  destruct (signal_logic_appended (enrich df) signals)
    as [E | (prev & last & a & s & _ & _ & E & _)]; rewrite E.
  - left. reflexivity.
  - right. exists s. reflexivity.
Qed.

(** C6.  A detection pass leaves the signal list as it is or appends
    exactly one signal at its end: the entries that were there keep
    their place and their content. *)
Theorem pass_appends_at_most_one (df : list candle) (signals : signals_t) :
  (detect df signals = signals \/ exists s, detect df signals = signals ++ [s]) /\
  firstn (length signals) (detect df signals) = signals /\
  (forall i s, nth_error signals i = Some s ->
               nth_error (detect df signals) i = Some s).
Proof.
  unfold detect.
  destruct (signal_logic_appended (enrich df) signals)
    as [E | (prev & last & a & s & _ & _ & E & _)]; rewrite E.
  - split; [left; reflexivity|]. split.
    + apply firstn_all.
    + auto.
  - split; [right; exists s; reflexivity|]. split.
    + rewrite firstn_app, Nat.sub_diag, firstn_all. simpl. apply app_nil_r.
    + intros i s' H. rewrite nth_error_app1; [assumption|].
      apply nth_error_Some. congruence.
Qed.

(** ** Leverage hint *)







(** ** The division by the last close *)



(** ** True Range *)

Lemma nth_error_close_shift (df : list candle) (i : nat) (k' : candle) :
  nth_error df i = Some k' -> (S i < length df)%nat ->
  nth_error (Pandas.shift (Pandas.of_values (map c_close df))) (S i)
  = Some (Some (c_close k')).
Proof.
  intros H L. rewrite PandasFacts.nth_error_shift_S.
  - unfold Pandas.of_values. rewrite !nth_error_map, H. reflexivity.
  - unfold Pandas.of_values. now rewrite !length_map.
Qed.

(** C4, as the code has it.  At every index i >= 1 the True Range is
    max(high_i - low_i, |high_i - close_{i-1}|, |low_i - close_{i-1}|).
    At index 0 it is not null: the row maximum skips the two cells
    that have no previous close, and the value is high_0 - low_0. *)
Theorem true_range_values (df : list candle) :
  (forall i k' k,
      nth_error df i = Some k' -> nth_error df (S i) = Some k ->
      nth_error (true_range df) (S i) =
      Some (Some (Qmax (Qmax (c_high k - c_low k)
                             (Qabs (c_high k - c_close k')))
                       (Qabs (c_low k - c_close k'))))) /\
  (forall k,
      nth_error df 0 = Some k ->
      nth_error (true_range df) 0 = Some (Some (c_high k - c_low k))).
Proof.
  split.
  - intros i k' k Hi HS.
    assert (L : (S i < length df)%nat).
    { apply nth_error_Some. congruence. }
    rewrite true_range_cells, nth_error_map.
    rewrite (nth_error_combine _ _ _ _ _ HS (nth_error_close_shift _ _ _ Hi L)).
    reflexivity.
  - intros k H. rewrite true_range_cells, nth_error_map.
    rewrite (nth_error_combine _ _ _ k None H); [reflexivity|].
    apply PandasFacts.nth_error_shift_0. destruct df; discriminate.
Qed.

Lemma true_range_values_witness :
  nth_error (true_range df14) 1 =
  Some (Some (Qmax (Qmax ((19 + 1) - (19 - 1)) (Qabs ((19 + 1) - 20)))
                   (Qabs ((19 - 1) - 20)))).
Proof.
  refine (proj1 (true_range_values df14) 0%nat
                (mkCandle 0 20 (20 + 1) (20 - 1) 20)
                (mkCandle 1 19 (19 + 1) (19 - 1) 19) _ _);
    reflexivity.
Defined.

(** The claim as written fails on a frame of one candle: its True
    Range at index 0 is high - low, not null. *)
Lemma true_range_index0_counterexample :
  ~ (forall df : list candle,
        df <> [] -> nth_error (true_range df) 0 = Some None).
Proof.
  intros H.
  specialize (H [mkCandle 0 5 6 4 5]).
  assert (X : nth_error (true_range [mkCandle 0 5 6 4 5]) 0 = Some (Some (6 - 4)))
    by reflexivity.
  rewrite X in H. specialize (H ltac:(discriminate)). discriminate H.
Qed.

(** ** ATR warm-up *)

Lemma rolling_mean_values_nth (n i : nat) (xs : list Q) :
  (i < length xs)%nat ->
  nth_error (Pandas.rolling_mean n (Pandas.of_values xs)) i =
  Some (if (n <=? S i)%nat
        then Some (Pandas.Qsum (skipn (S i - n) (firstn (S i) xs))
                   / inject_Z (Z.of_nat (Nat.min (S i) n)))
        else None).
Proof.
  intros H.
  rewrite PandasFacts.nth_error_rolling_mean
    by (unfold Pandas.of_values; now rewrite length_map).
  unfold Pandas.mean_min_periods.
  rewrite PandasFacts.window_values, PandasFacts.observations_values.
  assert (L : length (skipn (S i - n) (firstn (S i) xs)) = Nat.min (S i) n).
  { rewrite length_skipn, length_firstn. lia. }
  rewrite L.
  destruct (Nat.leb_spec n (S i)); destruct (Nat.leb_spec n (Nat.min (S i) n));
    try reflexivity; lia.
Qed.

Lemma atr_nth (df : list candle) (period i : nat) :
  (i < length df)%nat ->
  exists q,
    nth_error (atr df period) i =
    Some (if (period <=? S i)%nat then Some q else None).
Proof.
  intros H. unfold atr.
  destruct (true_range_no_nan df) as [xs Hxs].
  assert (L : length xs = length df).
  { rewrite <- length_true_range, Hxs. unfold Pandas.of_values.
    now rewrite length_map. }
  rewrite Hxs, rolling_mean_values_nth by lia.
  eexists. reflexivity.
Qed.




(** ** EMA of a flat market *)

Lemma ewm_loop_constant (alpha c : Q) (vals : list Q) :
  alpha <= 1 ->
  Forall (fun v => v == c) vals ->
  forall weighted old_wt,
    weighted == c -> 0 < old_wt ->
    Forall (fun y => y == c) (Pandas.ewm_loop alpha weighted old_wt vals).
Proof.
  intros Ha Hvals. induction Hvals as [|v vals Hv _ IH]; intros w o Hw Ho; simpl.
  - constructor.
  - assert (Hpos : 0 < o * (1 - alpha) + 1).
    { apply Qlt_le_trans with (y := 1); [reflexivity|].
      rewrite <- (Qplus_0_l 1) at 1. apply Qplus_le_l.
      apply Qmult_le_0_compat; [apply Qlt_le_weak; exact Ho|].
      unfold Qminus. rewrite <- (Qplus_opp_r alpha).
      apply Qplus_le_l. exact Ha. }
    assert (Hstep : (o * (1 - alpha) * w + 1 * v) / (o * (1 - alpha) + 1) == c).
    { rewrite Hw, Hv. field. intro E. rewrite E in Hpos.
      exact (Qlt_irrefl _ Hpos). }
    constructor; [exact Hstep|].
    apply IH; assumption.
Qed.

Lemma ewm_mean_constant (span : positive) (c : Q) (vals : list Q) :
  Pandas.alpha_of_span span <= 1 ->
  Forall (fun v => v == c) vals ->
  Forall (fun y => y == c) (Pandas.ewm_mean span vals).
Proof.
  intros Ha Hvals. destruct Hvals as [|v vals Hv Hvals]; simpl.
  - constructor.
  - constructor; [exact Hv|].
    apply ewm_loop_constant; try assumption. reflexivity.
Qed.

Lemma closes_constant (df : list candle) (c : Q) :
  Forall (fun k => c_close k == c) df ->
  Forall (fun v => v == c) (map c_close df).
Proof.
  intros H. induction H; simpl; constructor; assumption.
Qed.

(** C8.  On a frame whose closes all equal [c], [ema_fast] and
    [ema_slow] have one value per candle and each value equals [c]. *)
Theorem ema_constant_series (df : list candle) (c : Q) :
  Forall (fun k => c_close k == c) df ->
  length (ema_fast df) = length df /\
  length (ema_slow df) = length df /\
  Forall (fun y => y == c) (ema_fast df) /\
  Forall (fun y => y == c) (ema_slow df).
Proof.
  intros H. apply closes_constant in H.
  split; [apply length_ema_fast|]. split; [apply length_ema_slow|].
  split; apply ewm_mean_constant; try assumption; vm_compute; discriminate.
Qed.

Lemma ema_constant_series_witness :
  Forall (fun y => y == 5) (ema_fast df_flat) /\
  Forall (fun y => y == 5) (ema_slow df_flat).
Proof.
  refine (proj2 (proj2 (ema_constant_series df_flat 5 _))).
  unfold df_flat. simpl. repeat constructor.
Defined.

(** ** A failed fetch *)

Lemma fetch_loop_all_fail (net : mirrors) (todo : list string) (last_error : option string) :
  (forall url, In url todo -> exists e, net url = Raise e) ->
  exists e, fetch_loop net todo last_error = Raise e.
Proof.
  revert last_error. induction todo as [|url todo IH]; intros last_error H; simpl.
  - eexists. reflexivity.
  - destruct (H url (or_introl eq_refl)) as [e He]. rewrite He. simpl.
    apply IH. intros u Hu. apply H. right. exact Hu.
Qed.

(** C7.  When every mirror fails, [fetch_data] raises, naming the
    error of the last mirror; the run shows that error and stops: the
    page holds no frame and no markers, no indicator was computed and
    no signal evaluated, and the signal list is the one the run started
    with. *)
Theorem fetch_failure_leaves_signals
    (net : mirrors) (signals : signals_t) (e1 e2 e3 : string) :
  net "https://api1.binance.com/api/v3/klines"%string = Raise e1 ->
  net "https://api2.binance.com/api/v3/klines"%string = Raise e2 ->
  net "https://api3.binance.com/api/v3/klines"%string = Raise e3 ->
  let msg := ("Binance blocked all endpoints: " ++ e3)%string in
  fetch_data net = Raise msg /\
  main net signals = (signals, ErrorShown msg) /\
  run false net signals = (signals, ErrorShown msg).
Proof.
  intros H1 H2 H3 msg.
  assert (F : fetch_data net = Raise msg).
  { unfold fetch_data, urls. simpl. rewrite H1. simpl. rewrite H2. simpl.
    rewrite H3. reflexivity. }
  split; [exact F|]. split; unfold run, main; rewrite F; reflexivity.
Qed.

Lemma fetch_failure_leaves_signals_witness :
  main (fun _ => Raise "451"%string) [sample_signal 7] =
  ([sample_signal 7], ErrorShown "Binance blocked all endpoints: 451"%string).
Proof.
  refine (proj1 (proj2 (fetch_failure_leaves_signals
                   (fun _ => Raise "451"%string) [sample_signal 7]
                   "451"%string "451"%string "451"%string _ _ _)));
    reflexivity.
Defined.

(** ** What is displayed *)

(** The claim as written fails on the code's two views: the chart
    walks the last ten entries oldest first, and the table shows every
    entry, not the last [n]. *)
Lemma tail_view_counterexample :
  chart_view [sample_signal 1; sample_signal 2]
  <> tail_spec 10 [sample_signal 1; sample_signal 2] /\
  table_view (sample_log 11) <> Some (tail_spec 10 (sample_log 11)).
Proof.
  split; vm_compute; discriminate.
Qed.

Lemma chart_view_suffix (signals : signals_t) :
  signals = firstn (length signals - 10) signals ++ chart_view signals.
Proof.
  unfold chart_view. symmetry. apply firstn_skipn.
Qed.

(** C9, as the code has it.  The chart uses the last ten entries of
    the list (all of them when there are fewer), oldest first: the
    reverse of [tail(10)].  The table shows the whole list newest
    first, when the list is not empty.  Both are computed from the list
    that the run leaves in the session, which they do not change. *)
Theorem display_views (signals : signals_t) :
  chart_view signals = rev (tail_spec 10 signals) /\
  length (chart_view signals) = Nat.min 10 (length signals) /\
  (exists older, signals = older ++ chart_view signals) /\
  (signals = [] -> table_view signals = None) /\
  (signals <> [] ->
   table_view signals = Some (rev signals) /\
   table_view signals = Some (tail_spec (length signals) signals)) /\
  (forall net df,
      fetch_data net = Return df ->
      main net signals =
      (detect df signals,
       Dashboard (enrich df) (chart_view (detect df signals))
                 (table_view (detect df signals)))).
Proof.
  split; [|split; [|split; [|split; [|split]]]].
  - unfold tail_spec, chart_view. now rewrite rev_involutive.
  - unfold chart_view. rewrite length_skipn. lia.
  - eexists. apply chart_view_suffix.
  - intros ->. reflexivity.
  - intros H. destruct signals as [|s signals]; [congruence|].
    unfold tail_spec. rewrite Nat.sub_diag. split; reflexivity.
  - intros net df H. now apply main_fetched.
Qed.

Lemma display_views_witness :
  table_view [sample_signal 1; sample_signal 2]
  = Some [sample_signal 2; sample_signal 1].
Proof.
  refine (proj1 (proj1 (proj2 (proj2 (proj2 (proj2
            (display_views [sample_signal 1; sample_signal 2]))))) _)).
  discriminate.
Defined.

(** ** Deduplication *)

Section Sorted.
Context {A : Type} (R : A -> A -> Prop).

Lemma StronglySorted_snoc (l : list A) (x : A) :
  StronglySorted R l -> Forall (fun y => R y x) l ->
  StronglySorted R (l ++ [x]).
Proof.
  induction 1 as [|a l Hl IH Ha]; intros Hx; simpl.
  - repeat constructor.
  - inversion Hx; subst. constructor; [apply IH; assumption|].
    apply Forall_app. split; [assumption|]. repeat constructor. assumption.
Qed.

Lemma StronglySorted_snoc_inv (l : list A) (x : A) :
  StronglySorted R (l ++ [x]) -> Forall (fun y => R y x) l.
Proof.
  induction l as [|a l IH]; simpl; intros H; [constructor|].
  apply StronglySorted_inv in H. destruct H as [Hs Hf].
  apply Forall_app in Hf. destruct Hf as [_ Hf].
  constructor; [now inversion Hf|]. apply IH. exact Hs.
Qed.

End Sorted.

Lemma StronglySorted_lt_NoDup (l : list Z) : StronglySorted Z.lt l -> NoDup l.
Proof.
  induction 1 as [|a l Hl IH Ha]; constructor; [|assumption].
  intros Hin. rewrite Forall_forall in Ha. specialize (Ha a Hin). lia.
Qed.

(** The second of two passes on the same frame finds the list as the
    first left it. *)
Lemma signal_logic_idempotent (df : list row) (signals : signals_t) :
  signal_logic df (signal_logic df signals) = signal_logic df signals.
Proof.
  destruct (signal_logic_appended df signals)
    as [E | (prev & last & a & s & G & _ & E & T & _)]; rewrite E.
  - exact E.
  - apply (signal_logic_dup _ _ _ _ _ G). rewrite <- T. apply dedup_ok_snoc.
Qed.

(** A pass that appends stamps the signal with the time of the last
    candle of its frame. *)
Lemma detect_appended_time (df : list candle) (signals : signals_t) (s : signal) :
  detect df signals = signals ++ [s] ->
  last_time df = Some (s_time s) /\ dedup_ok signals (s_time s) = true.
Proof.
  intros E. unfold detect in E.
  destruct (signal_logic_appended (enrich df) signals)
    as [E' | (prev & last & a & s' & G & D & E' & T & _)].
  - rewrite E' in E. apply (f_equal (@length signal)) in E.
    rewrite length_app in E. simpl in E. lia.
  - rewrite E' in E. apply app_inj_tail in E. destruct E as [_ E]. subst s'.
    rewrite T. split; [|exact D].
    apply evaluated_spec in G. destruct G as (L & Hlast & _ & _).
    assert (I : Pandas.iloc_neg 1 (enrich df) = Some last).
    { apply iloc_neg_spec. split; [lia|exact Hlast]. }
    unfold last_time. rewrite <- (enrich_candles df) at 1.
    rewrite iloc_neg_map, I. reflexivity.
Qed.

Lemma run_from_sorted (ops : list op) :
  forall signals,
    StronglySorted Z.lt (map s_time signals) ->
    (forall t u, In t (map s_time signals) -> In u (pass_times ops) -> (t <= u)%Z) ->
    StronglySorted Z.le (pass_times ops) ->
    StronglySorted Z.lt (map s_time (fold_left step ops signals)).
Proof.
  induction ops as [|o ops IH]; intros signals Hs Hb Hp; simpl; [exact Hs|].
  destruct o as [df|].
  - (* a pass *)
    simpl in Hb, Hp.
    assert (Hrest : StronglySorted Z.le (pass_times ops)).
    { destruct (last_time df); [|exact Hp].
      apply StronglySorted_inv in Hp. tauto. }
    assert (Hb' : forall t u, In t (map s_time signals) -> In u (pass_times ops) ->
                              (t <= u)%Z).
    { intros t u Ht Hu. apply Hb; [exact Ht|].
      destruct (last_time df); [right|]; exact Hu. }
    destruct (detect_cases df signals) as [E | [s E]];
      simpl; rewrite E.
    + apply IH; assumption.
    + destruct (detect_appended_time _ _ _ E) as [T D].
      rewrite T in Hb, Hp.
      apply StronglySorted_inv in Hp. destruct Hp as [_ Hle].
      rewrite Forall_forall in Hle.
      assert (Hlt : Forall (fun y => (y < s_time s)%Z) (map s_time signals)).
      { apply dedup_ok_spec in D. destruct D as [-> | (pre & s' & -> & Hne)].
        - constructor.
        - rewrite map_app in *. simpl in *.
          assert (Hlast : (s_time s' < s_time s)%Z).
          { assert ((s_time s' <= s_time s)%Z).
            { apply Hb; [|left; reflexivity].
              apply in_or_app. right. left. reflexivity. }
            lia. }
          apply Forall_app. split; [|repeat constructor; exact Hlast].
          apply StronglySorted_snoc_inv in Hs.
          eapply Forall_impl; [|exact Hs]. simpl. intros; lia. }
      apply IH.
      * rewrite map_app. simpl. apply StronglySorted_snoc; assumption.
      * intros t u Ht Hu. rewrite map_app in Ht. apply in_app_or in Ht.
        destruct Ht as [Ht | [<- | []]].
        -- apply Hb; [exact Ht|right; exact Hu].
        -- apply Hle. exact Hu.
      * exact Hrest.
  - (* the clear button *)
    simpl in *. apply IH.
    + constructor.
    + intros t u [].
    + exact Hp.
Qed.

(** The claim as written fails when a frame ends on a candle older
    than one already signalled: only the last entry is compared.  After
    a BUY at time 14 and a SELL at time 15, a frame that ends at time 14
    again appends a second entry with time 14. *)
Lemma dedup_counterexample :
  map s_time (run_ops [Pass (df_buy 0); Pass (df_sell 1); Pass (df_buy 0)])
  = [14; 15; 14]%Z /\
  ~ NoDup (map s_time (run_ops [Pass (df_buy 0); Pass (df_sell 1); Pass (df_buy 0)])).
Proof.
  assert (X : map s_time (run_ops [Pass (df_buy 0); Pass (df_sell 1); Pass (df_buy 0)])
              = [14; 15; 14]%Z) by (vm_compute; reflexivity).
  split; [exact X|]. rewrite X. intros H.
  inversion H as [|x l Hin _]; subst. apply Hin. right. left. reflexivity.
Qed.

(** C2, as the code has it.  The dedup check compares with the last
    entry only.  When the frames of successive passes never end on an
    earlier candle than the frame before, no two entries of any list
    reached by passes and clears share a time; and a second pass on an
    unchanged frame appends nothing. *)
Theorem dedup_invariant :
  (forall ops,
      StronglySorted Z.le (pass_times ops) ->
      NoDup (map s_time (run_ops ops))) /\
  (forall df signals, detect df (detect df signals) = detect df signals).
Proof.
  split.
  - intros ops H. apply StronglySorted_lt_NoDup. unfold run_ops.
    apply run_from_sorted.
    + constructor.
    + intros t u [].
    + exact H.
  - intros df signals. apply signal_logic_idempotent.
Qed.

Lemma dedup_invariant_witness :
  NoDup (map s_time (run_ops [Pass (df_buy 0); Pass (df_buy 0); Pass (df_sell 1)])).
Proof.
  refine (proj1 dedup_invariant
                [Pass (df_buy 0); Pass (df_buy 0); Pass (df_sell 1)] _).
  vm_compute. repeat constructor; discriminate.
Defined.

(** ** The sample frames, run *)

Example buy_pass :
  map (fun s => (s_type s, s_time s, s_margin s)) (detect (df_buy 0) [])
  = [("BUY"%string, 14%Z, "3x"%string)].
Proof. vm_compute. reflexivity. Qed.

Example sell_pass :
  map (fun s => (s_type s, s_time s, s_margin s)) (detect (df_sell 0) [])
  = [("SELL"%string, 14%Z, "3x"%string)].
Proof. vm_compute. reflexivity. Qed.

Example flat_pass : detect df_flat [sample_signal 3] = [sample_signal 3].
Proof. vm_compute. reflexivity. Qed.

Example short_frame_pass : detect df14 [] = [].
Proof. vm_compute. reflexivity. Qed.

Example zero_close_hint : margin_of (atr_pct 1 0) = "3x"%string.
Proof. reflexivity. Qed.

(** * Further properties of the script *)

(** ** Mirror failover *)

Lemma fetch_loop_first_success
      (net : mirrors) (pre : list string) (url : string) (post : list string)
      (df : list candle) (last_error : option string) :
  (forall u, In u pre -> exists e, net u = Raise e) ->
  net url = Return df ->
  fetch_loop net (pre ++ url :: post) last_error = Return df.
Proof.
  revert last_error. induction pre as [|u pre IH]; intros last_error Hpre Hurl; simpl.
  - rewrite Hurl. reflexivity.
  - destruct (Hpre u (or_introl eq_refl)) as [e He]. rewrite He. simpl.
    apply IH; [|exact Hurl]. intros v Hv. apply Hpre. right. exact Hv.
Qed.

(** X1.  [fetch_data] returns the frame of the first mirror, in the
    order of [urls], that does not raise: the mirrors after it have no
    influence on the result. *)
Theorem fetch_data_first_success
      (net : mirrors) (pre : list string) (url : string) (post : list string)
      (df : list candle) :
  urls = pre ++ url :: post ->
  (forall u, In u pre -> exists e, net u = Raise e) ->
  net url = Return df ->
  fetch_data net = Return df.
Proof.
  intros Hsplit Hpre Hurl. unfold fetch_data. rewrite Hsplit.
  now apply fetch_loop_first_success.
Qed.

Lemma fetch_data_first_success_witness :
  fetch_data (fun u => if String.eqb u "https://api1.binance.com/api/v3/klines"
                       then Raise "451"%string else Return df14)
  = Return df14.
Proof.
  refine (fetch_data_first_success _
            ["https://api1.binance.com/api/v3/klines"%string]
            "https://api2.binance.com/api/v3/klines"%string
            ["https://api3.binance.com/api/v3/klines"%string] df14 _ _ _).
  - reflexivity.
  - intros u [<- | []]. exists "451"%string. reflexivity.
  - reflexivity.
Defined.

Lemma fetch_loop_outcome (net : mirrors) (todo : list string) (last_error : option string) :
  (forall df, fetch_loop net todo last_error = Return df ->
              exists url, In url todo /\ net url = Return df) /\
  (forall msg, fetch_loop net todo last_error = Raise msg ->
               forall url, In url todo -> exists e, net url = Raise e).
Proof.
  revert last_error. induction todo as [|u todo IH]; intros last_error; simpl.
  - split; [discriminate|]. intros msg _ url [].
  - destruct (net u) as [df0|e] eqn:E; simpl.
    + split.
      * intros df H. inversion H; subst. exists u. auto.
      * discriminate.
    + destruct (IH (Some e)) as [IH1 IH2]. split.
      * intros df H. destruct (IH1 df H) as (url & Hin & Hurl).
        exists url. auto.
      * intros msg H url [<- | Hin]; [exists e; exact E|].
        exact (IH2 msg H url Hin).
Qed.

(** X2.  A frame that [fetch_data] returns is the answer of one of the
    three mirrors, and [fetch_data] raises only when each of the three
    mirrors raised. *)
Theorem fetch_data_outcome (net : mirrors) :
  (forall df, fetch_data net = Return df ->
              exists url, In url urls /\ net url = Return df) /\
  (forall msg, fetch_data net = Raise msg ->
               forall url, In url urls -> exists e, net url = Raise e).
Proof.
  apply fetch_loop_outcome.
Qed.

Lemma fetch_data_outcome_witness :
  exists url, In url urls /\ (fun _ : string => Return df14) url = Return df14.
Proof.
  refine (proj1 (fetch_data_outcome (fun _ => Return df14)) df14 _).
  reflexivity.
Defined.

(** ** Frames too short to signal *)

Lemma add_columns_atr (df : list candle) (f s : list Q) (a : Pandas.series)
      (i : nat) (r : row) :
  nth_error (add_columns df f s a) i = Some r ->
  nth_error a i = Some (r_atr r).
Proof.
  revert f s a i. induction df as [|c df IH]; intros [|x f] [|y s] [|z a] [|i] H;
    simpl in *; try discriminate.
  - inversion H; subst. reflexivity.
  - apply IH in H. exact H.
Qed.

Lemma enrich_atr (df : list candle) (i : nat) (r : row) :
  nth_error (enrich df) i = Some r ->
  nth_error (atr df ATR_PERIOD) i = Some (r_atr r).
Proof.
  unfold enrich. apply add_columns_atr.
Qed.

(** X3.  A pass on a frame with fewer than [ATR_PERIOD] = 14 candles
    never changes the signal list, whatever the prices: its last ATR is
    NaN, so the signal logic is skipped. *)
Theorem short_frame_never_signals (df : list candle) (signals : signals_t) :
  (length df < ATR_PERIOD)%nat -> detect df signals = signals.
Proof.
  intros Hlen. unfold detect. apply signal_logic_not_evaluated.
  destruct (evaluated (enrich df)) as [[[prev last] a]|] eqn:G; [|reflexivity].
  exfalso. apply evaluated_spec in G. destruct G as (L & Hlast & _ & Ha).
  rewrite length_enrich in L, Hlast.
  apply enrich_atr in Hlast. rewrite Ha in Hlast.
  assert (B : (length df - 1 < length df)%nat) by lia.
  destruct (atr_nth df ATR_PERIOD (length df - 1) B) as [q Hq].
  rewrite Hq in Hlast.
  destruct (Nat.leb_spec ATR_PERIOD (S (length df - 1))); [lia|discriminate].
Qed.

Lemma short_frame_never_signals_witness :
  detect (df_buy 0) [] <> [] /\
  detect (mk_df 0 [20; 19; 30]) [sample_signal 1] = [sample_signal 1].
Proof.
  split.
  - vm_compute. discriminate.
  - refine (short_frame_never_signals (mk_df 0 [20; 19; 30]) [sample_signal 1] _).
    vm_compute. lia.
Defined.

(** ** The plot *)






(** ** Bounds on the True Range and on the ATR *)

Lemma tr_cell_bounds (k : candle) (pc : option Q) :
  exists q,
    tr_cell k pc = Some q /\
    c_high k - c_low k <= q /\
    (pc = None -> q = c_high k - c_low k) /\
    (pc <> None -> 0 <= q).
Proof.
  unfold tr_cell. rewrite PandasFacts.row_max_three.
  destruct pc as [c|]; cbn [option_map Pandas.cell_sub]; eexists;
    (split; [reflexivity|]).
  - split; [|split].
    + eapply Qle_trans; [|apply Q.le_max_l]. apply Q.le_max_l.
    + discriminate.
    + intros _. eapply Qle_trans; [|apply Q.le_max_r]. apply Qabs_nonneg.
  - split; [apply Qle_refl|]. split; [reflexivity|]. congruence.
Qed.

Lemma true_range_cell_at (df : list candle) (i : nat) :
  (i < length df)%nat ->
  exists k pc,
    nth_error df i = Some k /\
    nth_error (true_range df) i = Some (tr_cell k pc) /\
    (i = 0%nat -> pc = None) /\
    ((1 <= i)%nat -> pc <> None).
Proof.
  intros L.
  destruct (nth_error df i) as [k|] eqn:Hk;
    [|apply nth_error_None in Hk; lia].
  destruct i as [|i].
  - exists k, None. split; [reflexivity|]. split; [|split; [reflexivity|lia]].
    rewrite true_range_cells, nth_error_map.
    rewrite (nth_error_combine _ _ _ k None Hk); [reflexivity|].
    apply PandasFacts.nth_error_shift_0. destruct df; discriminate.
  - destruct (nth_error df i) as [k'|] eqn:Hk';
      [|apply nth_error_None in Hk'; lia].
    exists k, (Some (c_close k')). split; [reflexivity|].
    split; [|split; [discriminate|discriminate]].
    rewrite true_range_cells, nth_error_map.
    rewrite (nth_error_combine _ _ _ _ _ Hk (nth_error_close_shift _ _ _ Hk' L)).
    reflexivity.
Qed.

(** X6.  The True Range has a value on every row (it is never NaN),
    that value is at least high - low of its candle, and from the
    second row on it is not negative, whatever the candle looks like. *)
Theorem true_range_bounds (df : list candle) (i : nat) :
  (i < length df)%nat ->
  exists k q,
    nth_error df i = Some k /\
    nth_error (true_range df) i = Some (Some q) /\
    c_high k - c_low k <= q /\
    ((1 <= i)%nat -> 0 <= q).
Proof.
  intros L. destruct (true_range_cell_at df i L) as (k & pc & Hk & Ht & _ & Hpc).
  destruct (tr_cell_bounds k pc) as (q & Hq & Hlo & _ & Hnn).
  exists k, q. rewrite Ht, Hq.
  split; [exact Hk|]. split; [reflexivity|]. split; [exact Hlo|].
  intros Hi. apply Hnn. apply Hpc. exact Hi.
Qed.

Lemma true_range_bounds_witness :
  exists k q,
    nth_error df_inverted 1 = Some k /\
    nth_error (true_range df_inverted) 1 = Some (Some q) /\
    c_high k - c_low k <= q /\
    ((1 <= 1)%nat -> 0 <= q).
Proof.
  refine (true_range_bounds df_inverted 1 _). vm_compute. lia.
Defined.

Lemma Qsum_nonneg (xs : list Q) : Forall (fun x => 0 <= x) xs -> 0 <= Pandas.Qsum xs.
Proof.
  induction 1 as [|x xs Hx _ IH]; simpl; [apply Qle_refl|].
  rewrite <- (Qplus_0_l 0). apply Qplus_le_compat; assumption.
Qed.

Lemma Forall_window {A} (P : A -> Prop) (a b : nat) (xs : list A) :
  (forall j x, (a <= j)%nat -> nth_error xs j = Some x -> P x) ->
  Forall P (skipn a (firstn b xs)).
Proof.
  intros H. apply Forall_forall. intros x Hin.
  apply In_nth_error in Hin. destruct Hin as [j Hj].
  rewrite nth_error_skipn, nth_error_firstn in Hj.
  destruct (Nat.ltb (a + j) b); [|discriminate].
  apply (H (a + j)%nat); [lia|exact Hj].
Qed.

Lemma true_range_value_nonneg (df : list candle) (xs : list Q) (j : nat) (x : Q) :
  true_range df = Pandas.of_values xs ->
  nth_error xs j = Some x ->
  (1 <= j)%nat \/ (exists k0, nth_error df 0 = Some k0 /\ c_low k0 <= c_high k0) ->
  0 <= x.
Proof.
  intros Hxs Hj Hcase.
  assert (L : (j < length df)%nat).
  { rewrite <- length_true_range, Hxs. unfold Pandas.of_values.
    rewrite length_map. apply nth_error_Some. congruence. }
  destruct (true_range_cell_at df j L) as (k & pc & Hk & Ht & H0 & H1).
  destruct (tr_cell_bounds k pc) as (q & Hq & _ & Heq & Hnn).
  rewrite Hxs in Ht. unfold Pandas.of_values in Ht.
  rewrite nth_error_map, Hj, Hq in Ht. simpl in Ht.
  inversion Ht; subst q.
  destruct j as [|j].
  - destruct Hcase as [Hc | (k0 & Hk0 & Hwf)]; [lia|].
    rewrite Hk in Hk0. inversion Hk0; subst k0.
    rewrite (Heq (H0 eq_refl)).
    unfold Qminus. rewrite <- (Qplus_opp_r (c_low k)).
    apply Qplus_le_l. exact Hwf.
  - apply Hnn. apply H1. lia.
Qed.

Lemma atr_value_nonneg (df : list candle) (i : nat) (q : Q) :
  nth_error (atr df ATR_PERIOD) i = Some (Some q) ->
  (14 <= i)%nat \/
  (exists k0, nth_error df 0 = Some k0 /\ c_low k0 <= c_high k0) ->
  0 <= q.
Proof.
  intros Hq Hcase.
  assert (L : (i < length df)%nat).
  { rewrite <- (length_atr df ATR_PERIOD). apply nth_error_Some. congruence. }
  destruct (true_range_no_nan df) as [xs Hxs].
  assert (Lx : length xs = length df).
  { rewrite <- length_true_range, Hxs. unfold Pandas.of_values.
    now rewrite length_map. }
  unfold atr, ATR_PERIOD in Hq.
  rewrite Hxs, rolling_mean_values_nth in Hq by lia.
  remember (skipn (S i - 14) (firstn (S i) xs)) as w eqn:Hw.
  destruct (Nat.leb_spec 14 (S i)) as [Hi|Hi]; [|discriminate].
  replace (Nat.min (S i) 14) with 14%nat in Hq by lia.
  injection Hq as <-.
  apply Qle_shift_div_l; [reflexivity|].
  rewrite Qmult_0_l. apply Qsum_nonneg. subst w. apply Forall_window.
  intros j x Hj Hx. apply (true_range_value_nonneg df xs j x Hxs Hx).
  destruct Hcase as [Hc | Hc]; [left; lia|right; exact Hc].
Qed.

(** X7.  The ATR is not negative from index 14 on, whatever the
    candles look like, and at index 13 too when the first candle has
    its low below its high.  Index 13 needs that: the first True Range
    is high - low of the first candle without an absolute value, and a
    frame whose first candle is inverted has a negative ATR there. *)
Theorem atr_nonnegative :
  (forall (df : list candle) (i : nat) (q : Q),
      nth_error (atr df ATR_PERIOD) i = Some (Some q) ->
      (14 <= i)%nat \/
      (exists k0, nth_error df 0 = Some k0 /\ c_low k0 <= c_high k0) ->
      0 <= q) /\
  (exists q, nth_error (atr df_inverted ATR_PERIOD) 13 = Some (Some q) /\ q < 0).
Proof.
  split.
  - exact atr_value_nonneg.
  - eexists. split; [vm_compute; reflexivity|]. reflexivity.
Qed.

Lemma atr_nonnegative_witness :
  0 <= 50 # 14.
Proof.
  refine (proj1 atr_nonnegative (df_buy 0) 14%nat (50 # 14) _ _).
  - vm_compute. reflexivity.
  - left. lia.
Defined.

(** ** The EMA as a weighted mean *)








Lemma decayed_ones_pos (beta : Q) (n : nat) :
  0 <= beta -> 0 < decayed beta (repeat 1 (S n)).
Proof.
  intros Hb. induction n as [|n IH].
  - simpl. lra.
  - change (0 < 1 + beta * decayed beta (repeat 1 (S n))).
    assert (0 <= beta * decayed beta (repeat 1 (S n))).
    { apply Qmult_le_0_compat; [exact Hb|apply Qlt_le_weak; exact IH]. }
    lra.
Qed.

Lemma ewm_loop_weighted_mean (alpha : Q) (vals : list Q) :
  alpha <= 1 ->
  forall (past : list Q) (n : nat) (weighted old_wt : Q) (i : nat) (y : Q),
    length past = S n ->
    old_wt == decayed (1 - alpha) (repeat 1 (S n)) ->
    weighted == decayed (1 - alpha) past / decayed (1 - alpha) (repeat 1 (S n)) ->
    nth_error (Pandas.ewm_loop alpha weighted old_wt vals) i = Some y ->
    y == decayed (1 - alpha) (rev (firstn (S i) vals) ++ past)
         / decayed (1 - alpha) (repeat 1 (S i + S n)).
Proof.
  intros Ha. induction vals as [|x vals IH];
    intros past n w o i y Hlen Ho Hw Hy; simpl in Hy.
  - destruct i; discriminate.
  - assert (Hb : 0 <= 1 - alpha) by lra.
    pose proof (decayed_ones_pos (1 - alpha) n Hb) as Hd.
    pose proof (decayed_ones_pos (1 - alpha) (S n) Hb) as Hd'.
    set (D := decayed (1 - alpha) (repeat 1 (S n))) in *.
    set (N := decayed (1 - alpha) past) in *.
    assert (HD' : decayed (1 - alpha) (repeat 1 (S (S n))) == 1 + (1 - alpha) * D)
      by reflexivity.
    assert (Ho' : o * (1 - alpha) + 1 == decayed (1 - alpha) (repeat 1 (S (S n)))).
    { rewrite HD', Ho. ring. }
    assert (Hw' : (o * (1 - alpha) * w + 1 * x) / (o * (1 - alpha) + 1)
                  == decayed (1 - alpha) (x :: past)
                     / decayed (1 - alpha) (repeat 1 (S (S n)))).
    { change (decayed (1 - alpha) (x :: past)) with (x + (1 - alpha) * N).
      rewrite HD', Hw, Ho. field. split; lra. }
    destruct i as [|i]; simpl in Hy.
    + injection Hy as <-. simpl rev. simpl app.
      rewrite Hw'. reflexivity.
    + pose proof (IH (x :: past) (S n) _ _ i y
                     ltac:(simpl; congruence) Ho' Hw' Hy) as R.
      rewrite R. clear R.
      replace (rev (firstn (S (S i)) (x :: vals)) ++ past)
        with (rev (firstn (S i) vals) ++ x :: past).
      * replace (S (S i) + S n)%nat with (S i + S (S n))%nat by lia. reflexivity.
      * change (firstn (S (S i)) (x :: vals)) with (x :: firstn (S i) vals).
        simpl rev. rewrite <- app_assoc. reflexivity.
Qed.

Lemma ewm_mean_weighted_mean (span : positive) (vals : list Q) (i : nat) (y : Q) :
  Pandas.alpha_of_span span <= 1 ->
  nth_error (Pandas.ewm_mean span vals) i = Some y ->
  y == decayed (1 - Pandas.alpha_of_span span) (rev (firstn (S i) vals))
       / decayed (1 - Pandas.alpha_of_span span) (repeat 1 (S i)).
Proof.
  intros Ha Hy. destruct vals as [|x0 vals]; [destruct i; discriminate|].
  simpl in Hy. destruct i as [|i]; simpl in Hy.
  - injection Hy as <-. simpl. field.
  - pose proof (ewm_loop_weighted_mean _ vals Ha [x0] 0%nat x0 1 i y
                  eq_refl ltac:(simpl; ring) ltac:(simpl; field) Hy) as R.
    rewrite R.
    change (firstn (S (S i)) (x0 :: vals)) with (x0 :: firstn (S i) vals).
    simpl rev. replace (S i + 1)%nat with (S (S i)) by lia. reflexivity.
Qed.

(** X9.  Each EMA value is the mean of the closes up to its row with
    weights that decay by 1 - alpha per candle of age: at row [i] it is
    (c_i + b c_{i-1} + b^2 c_{i-2} + ...) / (1 + b + b^2 + ...), with
    i + 1 terms and b = 1 - 2/(span + 1), that is 4/5 for the fast EMA
    and 10/11 for the slow one. *)
Theorem ema_is_weighted_mean (df : list candle) (i : nat) (y : Q) :
  let b_fast := 1 - Pandas.alpha_of_span EMA_FAST in
  let b_slow := 1 - Pandas.alpha_of_span EMA_SLOW in
  b_fast == 4 # 5 /\
  b_slow == 10 # 11 /\
  (nth_error (ema_fast df) i = Some y ->
   y == decayed b_fast (rev (firstn (S i) (map c_close df)))
        / decayed b_fast (repeat 1 (S i))) /\
  (nth_error (ema_slow df) i = Some y ->
   y == decayed b_slow (rev (firstn (S i) (map c_close df)))
        / decayed b_slow (repeat 1 (S i))).
Proof.
  intros b_fast b_slow.
  split; [reflexivity|]. split; [reflexivity|].
  split; intros H.
  - apply (ewm_mean_weighted_mean EMA_FAST) in H; [exact H|vm_compute; discriminate].
  - apply (ewm_mean_weighted_mean EMA_SLOW) in H; [exact H|vm_compute; discriminate].
Qed.

Lemma ema_is_weighted_mean_witness :
  3500 # 180
  == decayed (1 - Pandas.alpha_of_span EMA_FAST) [19; 20]
     / decayed (1 - Pandas.alpha_of_span EMA_FAST) [1; 1].
Proof.
  refine (proj1 (proj2 (proj2 (ema_is_weighted_mean df14 1 (3500 # 180)))) _).
  vm_compute. reflexivity.
Defined.

(** ** What the signal list holds *)








(** ** What the dedup check does guarantee *)

Lemma adjacent_times_snoc (signals : signals_t) (s : signal) :
  (forall i a b,
      nth_error (map s_time signals) i = Some a ->
      nth_error (map s_time signals) (S i) = Some b -> a <> b) ->
  dedup_ok signals (s_time s) = true ->
  forall i a b,
    nth_error (map s_time (signals ++ [s])) i = Some a ->
    nth_error (map s_time (signals ++ [s])) (S i) = Some b -> a <> b.
Proof.
  intros Hadj D i a b Ha Hb. rewrite map_app in Ha, Hb.
  change (map s_time [s]) with [s_time s] in Ha, Hb.
  destruct (Nat.lt_ge_cases (S i) (length (map s_time signals))) as [Hlt|Hge].
  - rewrite nth_error_app1 in Ha by lia. rewrite nth_error_app1 in Hb by lia.
    exact (Hadj i a b Ha Hb).
  - assert (Hi : S i = length (map s_time signals)).
    { assert (S i < length (map s_time signals ++ [s_time s]))%nat
        by (apply nth_error_Some; congruence).
      rewrite length_app in H. simpl in H. lia. }
    rewrite nth_error_app2 in Hb by lia.
    rewrite Hi, Nat.sub_diag in Hb. simpl in Hb. injection Hb as <-.
    rewrite nth_error_app1 in Ha by lia.
    apply dedup_ok_spec in D. destruct D as [-> | (pre & s' & -> & Hne)].
    + simpl in Hi. discriminate.
    + rewrite map_app in Ha, Hi.
      change (map s_time [s']) with [s_time s'] in Ha, Hi.
      rewrite length_app in Hi. simpl in Hi.
      rewrite nth_error_app2 in Ha by lia.
      replace (i - length (map s_time pre))%nat with 0%nat in Ha by lia.
      simpl in Ha. injection Ha as <-. exact Hne.
Qed.

Lemma fold_step_adjacent (ops : list op) (signals : signals_t) :
  (forall i a b,
      nth_error (map s_time signals) i = Some a ->
      nth_error (map s_time signals) (S i) = Some b -> a <> b) ->
  forall i a b,
    nth_error (map s_time (fold_left step ops signals)) i = Some a ->
    nth_error (map s_time (fold_left step ops signals)) (S i) = Some b -> a <> b.
Proof.
  revert signals. induction ops as [|o ops IH]; intros signals H; simpl; [exact H|].
  apply IH. destruct o as [df|]; simpl.
  - destruct (detect_cases df signals) as [E | [s E]]; rewrite E; [exact H|].
    apply adjacent_times_snoc; [exact H|].
    exact (proj2 (detect_appended_time _ _ _ E)).
  - intros [|i] a b Ha; discriminate.
Qed.

(** X12.  Without any assumption on the frames, two neighbouring
    entries of a signal list reached by passes and clears never have
    the same time: the dedup check rules out exactly that. *)
Theorem neighbours_differ_in_time (ops : list op) (i : nat) (a b : Z) :
  nth_error (map s_time (run_ops ops)) i = Some a ->
  nth_error (map s_time (run_ops ops)) (S i) = Some b ->
  a <> b.
Proof.
  apply fold_step_adjacent. intros [|j] x y H; discriminate.
Qed.

Lemma neighbours_differ_in_time_witness : 15%Z <> 14%Z.
Proof.
  refine (neighbours_differ_in_time
            [Pass (df_buy 0); Pass (df_sell 1); Pass (df_buy 0)] 1 15 14 _ _);
    vm_compute; reflexivity.
Defined.

Lemma last_time_enrich (df : list candle) (last : row) :
  Pandas.iloc_neg 1 (enrich df) = Some last -> last_time df = Some (r_time last).
Proof.
  intros I. unfold last_time. rewrite <- (enrich_candles df) at 1.
  rewrite iloc_neg_map, I. reflexivity.
Qed.

(** X13.  Once the last entry of the list carries the time of the last
    candle, a pass on a frame that ends on that candle appends nothing,
    whatever the EMAs do: a crossing back within the same candle is
    not recorded. *)
Theorem same_candle_never_signals_twice
      (df : list candle) (pre : signals_t) (s : signal) :
  last_time df = Some (s_time s) ->
  detect df (pre ++ [s]) = pre ++ [s].
Proof.
  intros T. unfold detect.
  destruct (evaluated (enrich df)) as [[[prev last] a]|] eqn:G.
  - apply (signal_logic_dup _ _ _ _ _ G).
    assert (I : Pandas.iloc_neg 1 (enrich df) = Some last).
    { apply evaluated_spec in G. destruct G as (L & Hlast & _).
      apply iloc_neg_spec. split; [lia|exact Hlast]. }
    apply last_time_enrich in I. rewrite T in I. injection I as I.
    rewrite <- I. apply dedup_ok_snoc.
  - now apply signal_logic_not_evaluated.
Qed.

Lemma same_candle_never_signals_twice_witness :
  detect (df_sell 0) ([] ++ [sample_signal 14]) = [] ++ [sample_signal 14].
Proof.
  refine (same_candle_never_signals_twice (df_sell 0) [] (sample_signal 14) _).
  vm_compute. reflexivity.
Defined.

Lemma fold_step_times (ops : list op) (signals : signals_t) (t : Z) :
  In t (map s_time (fold_left step ops signals)) ->
  In t (map s_time signals) \/ In t (pass_times ops).
Proof.
  revert signals. induction ops as [|o ops IH]; intros signals H; simpl in *;
    [left; exact H|].
  apply IH in H. destruct o as [df|]; simpl in H.
  - destruct (detect_cases df signals) as [E | [s E]]; rewrite E in H.
    + destruct H as [H|H]; [left; exact H|].
      right. destruct (last_time df); [right|]; exact H.
    + destruct (detect_appended_time _ _ _ E) as [T _]. rewrite T.
      destruct H as [H|H]; [|right; right; exact H].
      rewrite map_app in H. apply in_app_or in H.
      destruct H as [H | [<- | []]]; [left; exact H|].
      right. left. reflexivity.
  - destruct H as [[]|H]. right. exact H.
Qed.

Lemma fold_step_length (ops : list op) (signals : signals_t) (n : nat) :
  (length signals <= n)%nat ->
  (length (fold_left step ops signals) <=
   fold_left (fun n o => match o with Pass _ => S n | Clear => 0%nat end) ops n)%nat.
Proof.
  revert signals n. induction ops as [|o ops IH]; intros signals n H; simpl;
    [exact H|].
  apply IH. destruct o as [df|]; simpl.
  - destruct (detect_cases df signals) as [E | [s E]]; rewrite E.
    + lia.
    + rewrite length_app. simpl. lia.
  - lia.
Qed.

(** X14.  A signal list reached by passes and clears holds no more
    entries than there were passes since the last clear, and the time of
    each entry is the time of the last candle of one of the frames. *)
Theorem reachable_signals_bounded (ops : list op) :
  (length (run_ops ops) <= live_passes ops)%nat /\
  (forall t, In t (map s_time (run_ops ops)) -> In t (pass_times ops)).
Proof.
  split.
  - apply fold_step_length. simpl. lia.
  - intros t H. apply fold_step_times in H. destruct H as [[]|H]. exact H.
Qed.

Lemma reachable_signals_bounded_witness :
  In 15%Z (pass_times [Pass (df_buy 0); Clear; Pass (df_sell 1)]).
Proof.
  refine (proj2 (reachable_signals_bounded
                   [Pass (df_buy 0); Clear; Pass (df_sell 1)]) 15%Z _).
  vm_compute. left. reflexivity.
Defined.

(** ** The clear button *)

(** X15.  After a run with the clear button pressed the list holds at
    most one signal, the one of this run, and nothing of what it held
    before: the result is that of a run on an empty list. *)
Theorem clear_run_forgets (net : mirrors) (signals : signals_t) :
  fst (run true net signals) = fst (run false net []) /\
  (length (fst (run true net signals)) <= 1)%nat /\
  (forall msg, fetch_data net = Raise msg -> fst (run true net signals) = []).
Proof.
  unfold run, clear, main.
  destruct (fetch_data net) as [df|e] eqn:F; simpl.
  - split; [reflexivity|]. split; [|discriminate].
    destruct (signal_logic_appended (enrich df) [])
      as [E | (_ & _ & _ & s & _ & _ & E & _)]; rewrite E; simpl; lia.
  - split; [reflexivity|]. split; [lia|]. reflexivity.
Qed.

(** ** The chart as a sliding window *)

Lemma tl_skipn {A} (k : nat) (l : list A) : tl (skipn k l) = skipn (S k) l.
Proof.
  revert l. induction k as [|k IH]; intros [|x l]; try reflexivity.
  simpl skipn at 1. rewrite IH. reflexivity.
Qed.

(** X16.  Appending a signal always puts it on the chart as the newest
    marker; the markers before it stay, except that the oldest one
    leaves once ten are shown. *)
Theorem chart_view_slides (signals : signals_t) (s : signal) :
  chart_view (signals ++ [s]) =
  (if (10 <=? length signals)%nat
   then tl (chart_view signals)
   else chart_view signals) ++ [s].
Proof.
  unfold chart_view. rewrite length_app. simpl length.
  destruct (Nat.leb_spec 10 (length signals)) as [H|H].
  - rewrite tl_skipn, skipn_app.
    replace (length signals + 1 - 10)%nat with (S (length signals - 10)) by lia.
    replace (S (length signals - 10) - length signals)%nat with 0%nat by lia.
    reflexivity.
  - replace (length signals + 1 - 10)%nat with 0%nat by lia.
    replace (length signals - 10)%nat with 0%nat by lia.
    reflexivity.
Qed.

(** ** A zero close *)



Lemma clear_run_forgets_witness :
  fst (run true (fun _ => Raise "451"%string) [sample_signal 3]) = [].
Proof.
  refine (proj2 (proj2 (clear_run_forgets (fun _ => Raise "451"%string)
                          [sample_signal 3]))
                "Binance blocked all endpoints: 451"%string _).
  reflexivity.
Defined.

(** ** A flat market *)

Lemma add_columns_emas (df : list candle) (f s : list Q) (a : Pandas.series)
      (i : nat) (r : row) :
  nth_error (add_columns df f s a) i = Some r ->
  nth_error f i = Some (r_ema_fast r) /\ nth_error s i = Some (r_ema_slow r).
Proof.
  revert f s a i. induction df as [|c df IH]; intros [|x f] [|y s] [|z a] [|i] H;
    simpl in *; try discriminate.
  - inversion H; subst. simpl. auto.
  - apply IH in H. exact H.
Qed.

Lemma Forall_nth_error {A} (P : A -> Prop) (l : list A) (i : nat) (x : A) :
  Forall P l -> nth_error l i = Some x -> P x.
Proof.
  intros H Hx. rewrite Forall_forall in H. apply H.
  eapply nth_error_In. exact Hx.
Qed.

(** X18.  A frame whose closes are all equal never changes the signal
    list, however long it is and whatever its highs and lows: both EMAs
    sit on the close, and a crossing needs strict inequalities. *)
Theorem flat_market_never_signals (df : list candle) (c : Q) (signals : signals_t) :
  Forall (fun k => c_close k == c) df ->
  detect df signals = signals.
Proof.
  intros H. apply closes_constant in H. unfold detect.
  destruct (evaluated (enrich df)) as [[[prev last] a]|] eqn:G;
    [|now apply signal_logic_not_evaluated].
  pose proof G as G'. apply evaluated_spec in G'.
  destruct G' as (_ & Hlast & _ & _).
  unfold enrich in Hlast. apply add_columns_emas in Hlast.
  destruct Hlast as [Hf Hs].
  assert (Ef : r_ema_fast last == c).
  { apply (Forall_nth_error (fun y => y == c) (ema_fast df) _ _
             (ewm_mean_constant EMA_FAST c _ ltac:(vm_compute; discriminate) H) Hf). }
  assert (Es : r_ema_slow last == c).
  { apply (Forall_nth_error (fun y => y == c) (ema_slow df) _ _
             (ewm_mean_constant EMA_SLOW c _ ltac:(vm_compute; discriminate) H) Hs). }
  apply (signal_logic_no_cross _ _ _ _ _ G).
  - unfold buy_cross. apply andb_false_iff. right.
    apply Qlt_bool_false_iff. rewrite Ef, Es. apply Qle_refl.
  - unfold sell_cross. apply andb_false_iff. right.
    apply Qlt_bool_false_iff. rewrite Ef, Es. apply Qle_refl.
Qed.

Lemma flat_market_never_signals_witness :
  detect df_flat [sample_signal 3] = [sample_signal 3].
Proof.
  refine (flat_market_never_signals df_flat 5 [sample_signal 3] _).
  unfold df_flat. simpl. repeat constructor.
Defined.
